(** * Fjord wind forecast: the estimation and simulation core

    A shallow embedding of [src/hooks/useWindTracker.ts] (the simulator,
    the fetcher, one poll cycle of the tracker, the derived trend values
    and the gear estimator) and of the two places of [src/pages/Index.tsx]
    that turn tracker values into a "Building" label.

    Numbers.  A JavaScript [number] is modelled by the type [number] below:
    an exact rational, or one of the three IEEE special values.  Finite
    arithmetic is exact (no binary rounding and no overflow), the special
    values follow IEEE 754 / ECMAScript, and the two zeros are identified.

    Effects.  [Math.random()] and [new Date()] read two input tapes held in
    a [World]; the network is an oracle of the same [World].  Code that can
    throw lives in the monad [M], which threads the world and an exception. *)

From Stdlib Require Import QArith Qround Qabs Qminmax Lqa ZArith Lia Ascii.
From stdpp Require Import gmap strings list pretty.

Set Default Proof Using "Type".

(** ** JavaScript numbers *)

Inductive number : Type :=
  | Num (q : Q)
  | Infinity
  | NegInfinity
  | NaN.

Arguments Num q%_Q.

Declare Scope js_scope.
Delimit Scope js_scope with js.
Bind Scope js_scope with number.

Module Js.

(** Equality of values: rationals are compared by [Qeq]. *)
Definition num_eq (x y : number) : Prop :=
  match x, y with
  | Num a, Num b => (a == b)%Q
  | Infinity, Infinity => True
  | NegInfinity, NegInfinity => True
  | NaN, NaN => True
  | _, _ => False
  end.

Definition is_NaN (x : number) : bool :=
  match x with NaN => true | _ => false end.

Definition finite (x : number) : Prop :=
  match x with Num _ => True | _ => False end.

Definition Qltb (a b : Q) : bool := negb (Qle_bool b a).
Definition Qeqb (a b : Q) : bool := Qeq_bool a b.

(** Unary minus. *)
Definition neg (x : number) : number :=
  match x with
  | Num a => Num (- a)
  | Infinity => NegInfinity
  | NegInfinity => Infinity
  | NaN => NaN
  end.

(** [x + y] *)
Definition add (x y : number) : number :=
  match x, y with
  | NaN, _ | _, NaN => NaN
  | Infinity, NegInfinity | NegInfinity, Infinity => NaN
  | Infinity, _ | _, Infinity => Infinity
  | NegInfinity, _ | _, NegInfinity => NegInfinity
  | Num a, Num b => Num (a + b)
  end.

(** [x - y] *)
Definition sub (x y : number) : number := add x (neg y).

(** The infinity with the sign of [s * t], for [s] an infinity's sign
    ([true] is positive) and [t] a rational; zero times infinity is NaN. *)
Definition signed_inf (positive : bool) : number :=
  if positive then Infinity else NegInfinity.

Definition inf_times (positive : bool) (b : Q) : number :=
  if Qeqb b 0 then NaN
  else signed_inf (if Qltb 0 b then positive else negb positive).

(** [x * y] *)
Definition mul (x y : number) : number :=
  match x, y with
  | NaN, _ | _, NaN => NaN
  | Infinity, Infinity | NegInfinity, NegInfinity => Infinity
  | Infinity, NegInfinity | NegInfinity, Infinity => NegInfinity
  | Infinity, Num b | Num b, Infinity => inf_times true b
  | NegInfinity, Num b | Num b, NegInfinity => inf_times false b
  | Num a, Num b => Num (a * b)
  end.

(** [x / y].  A zero divisor is read as [+0]. *)
Definition div (x y : number) : number :=
  match x, y with
  | NaN, _ | _, NaN => NaN
  | (Infinity | NegInfinity), (Infinity | NegInfinity) => NaN
  | Infinity, Num b => signed_inf (negb (Qltb b 0))
  | NegInfinity, Num b => signed_inf (Qltb b 0)
  | Num _, (Infinity | NegInfinity) => Num 0
  | Num a, Num b =>
      if Qeqb b 0 then
        if Qeqb a 0 then NaN else signed_inf (Qltb 0 a)
      else Num (a / b)
  end.

(** Truncation toward zero. *)
Definition Qtrunc (a : Q) : Z :=
  if Qle_bool 0 a then Qfloor a else Qceiling a.

(** [x % y]: the remainder has the sign of the dividend. *)
Definition rem (x y : number) : number :=
  match x, y with
  | NaN, _ | _, NaN => NaN
  | (Infinity | NegInfinity), _ => NaN
  | Num a, (Infinity | NegInfinity) => Num a
  | Num a, Num b =>
      if Qeqb b 0 then NaN
      else Num (a - b * inject_Z (Qtrunc (a / b)))
  end.

(** The comparisons [x < y] and [x <= y]; both are false on NaN. *)
Definition ltb (x y : number) : bool :=
  match x, y with
  | NaN, _ | _, NaN => false
  | _, NegInfinity => false
  | Infinity, _ => false
  | NegInfinity, _ => true
  | _, Infinity => true
  | Num a, Num b => Qltb a b
  end.

Definition leb (x y : number) : bool :=
  match x, y with
  | NaN, _ | _, NaN => false
  | NegInfinity, _ => true
  | _, Infinity => true
  | _, NegInfinity => false
  | Infinity, _ => false
  | Num a, Num b => Qle_bool a b
  end.

Definition gtb (x y : number) : bool := ltb y x.
Definition geb (x y : number) : bool := leb y x.

(** [Math.max(x, y)] and [Math.min(x, y)]: NaN if either argument is. *)
Definition Math_max (x y : number) : number :=
  match x, y with
  | NaN, _ | _, NaN => NaN
  | _, _ => if leb x y then y else x
  end.

Definition Math_min (x y : number) : number :=
  match x, y with
  | NaN, _ | _, NaN => NaN
  | _, _ => if leb x y then x else y
  end.

(** [Math.round(x)]: the nearest integer, a tie going up. *)
Definition Math_round (x : number) : number :=
  match x with
  | Num a => Num (inject_Z (Qfloor (a + (1 # 2))))
  | _ => x
  end.

(** [Number.isNaN(x)] *)
Definition Number_isNaN (x : number) : bool := is_NaN x.

End Js.

Notation "x + y" := (Js.add x y) : js_scope.
Notation "x - y" := (Js.sub x y) : js_scope.
Notation "x * y" := (Js.mul x y) : js_scope.
Notation "x / y" := (Js.div x y) : js_scope.
Notation "- x" := (Js.neg x) : js_scope.
Notation "x 'mod' y" := (Js.rem x y) : js_scope.
Notation "x <? y" := (Js.ltb x y) : js_scope.
Notation "x <=? y" := (Js.leb x y) : js_scope.
Notation "x >? y" := (Js.gtb x y) : js_scope.
Notation "x >=? y" := (Js.geb x y) : js_scope.
Infix "=n=" := Js.num_eq (at level 70, no associativity).

(** ** [toFixed] and [Number]

    [x.toFixed(f)] yields a string; only its reading back through
    [Number(...)] matters here, so the string is kept as a numeral: a sign,
    an integer [n] and the count [f] of fraction digits (the text of
    [n / 10^f]), or the text of a value printed as it is ("NaN",
    "Infinity", and the exponent form used from 10^21 on). *)

Inductive numeral : Type :=
  | Decimal (negative : bool) (n : Z) (fraction_digits : nat)
  | Literal (x : number).

Definition pow10 (f : nat) : Q := inject_Z (10 ^ Z.of_nat f).

(** [x.toFixed(f)]: the integer [n] closest to [|x| * 10^f], the larger
    one on a tie. *)
Definition toFixed (x : number) (f : nat) : numeral :=
  match x with
  | Num a =>
      if Qle_bool (inject_Z (10 ^ 21)) (Qabs a) then Literal x
      else Decimal (Js.Qltb a 0) (Qfloor (Qabs a * pow10 f + (1 # 2))) f
  | _ => Literal x
  end.

(** [Number(s)] for a string produced by [toFixed]. *)
Definition Number (s : numeral) : number :=
  match s with
  | Decimal negative n f =>
      Num ((if negative then - inject_Z n else inject_Z n) / pow10 f)
  | Literal x => x
  end.

(** ** Strings *)

Fixpoint includes (s : string) (c : ascii) : bool :=
  match s with
  | EmptyString => false
  | String a s' => if Ascii.eqb a c then true else includes s' c
  end.

(** [s.replace(c, d)] with a string pattern: the first match only. *)
Fixpoint replace (s : string) (c d : ascii) : string :=
  match s with
  | EmptyString => EmptyString
  | String a s' => if Ascii.eqb a c then String d s' else String a (replace s' c d)
  end.

(** [s.replace(/\/$/, "")]: one slash at the very end is dropped. *)
Fixpoint strip_trailing_slash (s : string) : string :=
  match s with
  | EmptyString => EmptyString
  | String a EmptyString => if Ascii.eqb a "/" then EmptyString else s
  | String a s' => String a (strip_trailing_slash s')
  end.

Definition toISO (dateTime : string) : string :=
  if includes dateTime "T" then dateTime
  else replace dateTime " " "T".

(** ** Data model *)

Record Wind : Type := {
  wind_speed : number;
  wind_gust : number;
  wind_min : number;
  wind_unit : string;
  wind_direction : number
}.

Record WindPayload : Type := {
  stationId : Z;
  stationName : string;
  dateTime : string;
  wind : Wind;
  humidity : option number;
  pressure : option number;
  rain : option number;
  temperature : option number
}.

Record HistoricPoint : Type := {
  hp_t : string;
  hp_speed : number;
  hp_gust : number
}.

Inductive station_key : Type := drobak | lysaker.

Record Station : Type := { station_id : Z; station_name : string }.

Definition STATIONS (key : station_key) : Station :=
  match key with
  | drobak => {| station_id := 101; station_name := "Drøbak" |}
  | lysaker => {| station_id := 201; station_name := "Lysaker" |}
  end.

(** ** The world, exceptions and the monad [M] *)

Inductive exn : Type :=
  | AbortError
  | TypeError
  | SyntaxError
  | Error (message : string).

(** What the network answers to one GET.  The body is [None] when it is
    not JSON; a JSON body is taken to have the shape the caller's type
    argument asserts. *)
Inductive response (T : Type) : Type :=
  | Aborted
  | NetworkFailure
  | Status (code : Z) (body : option T).

Arguments Aborted {T}.
Arguments NetworkFailure {T}.
Arguments Status {T} code body.

Record World : Type := {
  random_tape : nat -> Q;
  clock_tape : nat -> Z;
  http_current : string -> response WindPayload;
  http_historic : string -> response (list HistoricPoint)
}.

Inductive result (A : Type) : Type :=
  | Ok (a : A)
  | Throw (e : exn).

Arguments Ok {A} a.
Arguments Throw {A} e.

Definition M (A : Type) : Type := World -> result A * World.

Definition ret {A} (a : A) : M A := fun w => (Ok a, w).

Definition throw {A} (e : exn) : M A := fun w => (Throw e, w).

Definition bind {A B} (c : M A) (k : A -> M B) : M B :=
  fun w =>
    match c w with
    | (Ok a, w') => k a w'
    | (Throw e, w') => (Throw e, w')
    end.

Definition try_catch {A} (body : M A) (handler : M A) : M A :=
  fun w =>
    match body w with
    | (Ok a, w') => (Ok a, w')
    | (Throw _, w') => handler w'
    end.

Notation "'let*' x ':=' c 'in' k" := (bind c (fun x => k))
  (at level 10, x pattern, c at level 100, k at level 200).

Definition shift {A} (tape : nat -> A) : nat -> A := fun n => tape (S n).

(** The world after one reading of the random tape, and of the clock. *)
Definition next_random (w : World) : World :=
  {| random_tape := shift (random_tape w);
     clock_tape := clock_tape w;
     http_current := http_current w;
     http_historic := http_historic w |}.

Definition next_clock (w : World) : World :=
  {| random_tape := random_tape w;
     clock_tape := shift (clock_tape w);
     http_current := http_current w;
     http_historic := http_historic w |}.

(** [Math.random()]: the next cell of the random tape. *)
Definition Math_random : M number :=
  fun w => (Ok (Num (random_tape w 0)), next_random w).

(** [new Date()]: the next reading of the clock, in milliseconds. *)
Definition Date_now : M Z :=
  fun w => (Ok (clock_tape w 0), next_clock w).

(** The random tape holds what [Math.random] may return: values of [0, 1). *)
Definition unit_tape (w : World) : Prop :=
  forall n, (0 <= random_tape w n)%Q /\ (random_tape w n < 1)%Q.

(** date-fns is no part of the repository: its [formatISO] is an interface. *)
Class DateFns : Type := formatISO : Z -> string.

(** ** Simulator *)

Section Simulator.
Context {fmt : DateFns}.

Definition randBetween (min max : number) : M number :=
  let* r := Math_random in
  ret (r * (max - min) + min)%js.

Definition clamp (n min max : number) : number :=
  Js.Math_min max (Js.Math_max min n).

(** Simple random-walk simulator, used when the API is absent. *)
Definition simulateCurrent (station : station_key) (prev : option WindPayload)
  : M WindPayload :=
  let baseSpeed := match station with drobak => Num 5 | lysaker => Num 3 end in
  let* drift :=
    match station with
    | drobak => randBetween (Num (-0.3)) (Num 0.9)
    | lysaker => randBetween (Num (-0.4)) (Num 0.6)
    end in
  let* prevSpeed :=
    match prev with
    | Some p => ret (wind_speed (wind p))
    | None => let* r := randBetween (Num (-1)) (Num 1) in ret (baseSpeed + r)%js
    end in
  let speed := clamp (prevSpeed + drift)%js (Num 0) (Num 20) in
  let* g := randBetween (Num 0.2) (Num 2.5) in
  let gust := clamp (speed + g)%js speed (speed + Num 4)%js in
  let* m := randBetween (Num 0.1) (Num 1) in
  let min := clamp (speed - m)%js (Num 0) speed in
  let* direction :=
    match station with
    | drobak => let* r := randBetween (Num (-20)) (Num 20) in ret (Num 190 + r)%js
    | lysaker => let* r := randBetween (Num (-25)) (Num 25) in ret (Num 200 + r)%js
    end in
  let* now := Date_now in
  let* h := randBetween (Num (-15)) (Num 15) in
  let* p := randBetween (Num (-8)) (Num 8) in
  let* r := randBetween (Num 0) (Num 0.2) in
  let* t := randBetween (Num (-2)) (Num 8) in
  ret {| stationId := station_id (STATIONS station);
         stationName := station_name (STATIONS station);
         dateTime := formatISO now;
         wind := {| wind_speed := speed; wind_gust := gust; wind_min := min;
                    wind_unit := "m/s"; wind_direction := direction |};
         humidity := Some (Num 60 + h)%js;
         pressure := Some (Num 1015 + p)%js;
         rain := Some r;
         temperature := Some (Num 12 + t)%js |}.

(** The loop of [simulateHistoric]: [for (let i = minutes; i >= 0; i -= 5)].
    [fuel] bounds the number of turns; [simulateHistoric] passes more than
    the loop can use (see [simulateHistoric_loop_fuel]). *)
Fixpoint simulateHistoric_loop (fuel : nat) (now i : Z) (speed gust : number)
    (pts : list HistoricPoint) : M (list HistoricPoint) :=
  match fuel with
  | O => ret pts
  | S fuel' =>
      if (i >=? 0)%Z then
        (* drift backward to create plausible history *)
        let* r1 := randBetween (Num (-0.5)) (Num 0.6) in
        let speed := clamp (speed + r1)%js (Num 0) (Num 22) in
        let* r2 := randBetween (Num (-0.4)) (Num 0.9) in
        let gust := clamp (Js.Math_max gust speed + r2)%js speed (speed + Num 5)%js in
        let t := (now - i * 60000)%Z in
        simulateHistoric_loop fuel' now (i - 5)%Z speed gust
          (pts ++ [ {| hp_t := formatISO t;
                       hp_speed := Number (toFixed speed 2);
                       hp_gust := Number (toFixed gust 2) |} ])
      else ret pts
  end.

(** [minutes] is a whole number of minutes, as at the two calls of the
    source (both take the default); instants are milliseconds. *)
Definition simulateHistoric (current : WindPayload) (minutes : Z) : M (list HistoricPoint) :=
  let speed := wind_speed (wind current) in
  let gust := wind_gust (wind current) in
  let* now := Date_now in
  simulateHistoric_loop (Z.to_nat (minutes + 1)) now minutes speed gust [].

(** The default of the parameter: [minutes = 180]. *)
Definition default_minutes : Z := 180.

End Simulator.

(** ** Arrays *)

(** [a.slice(start)] for an integer [start]: a negative one counts from the end. *)
Definition Array_slice {A} (a : list A) (start : Z) : list A :=
  let len := Z.of_nat (length a) in
  let k := if (start <? 0)%Z then Z.max (len + start) 0 else Z.min start len in
  drop (Z.to_nat k) a.

(** [a[i]] for an integer [i]: [None] stands for [undefined]. *)
Definition Array_get {A} (a : list A) (i : Z) : option A :=
  if (i <? 0)%Z then None else a !! Z.to_nat i.

(** [a.at(i)] for an integer [i]. *)
Definition Array_at {A} (a : list A) (i : Z) : option A :=
  let len := Z.of_nat (length a) in
  let k := if (i >=? 0)%Z then i else (len + i)%Z in
  if (k <? 0)%Z || (k >=? len)%Z then None else a !! Z.to_nat k.

(** [a[ix]] for a number [ix]: only a non-negative integer below the length
    names an element. *)
Definition Array_index {A} (a : list A) (ix : number) : option A :=
  match ix with
  | Num q =>
      if Js.Qeqb q (inject_Z (Qfloor q)) then Array_get a (Qfloor q) else None
  | _ => None
  end.

(** ** Fetcher *)

(** [fetchJSON<T>(url, timeoutMs = 8000)].  Real time is not modelled: that
    the timer fired first is one of the answers of the network. *)
Definition fetchJSON {T} (net : World -> string -> response T) (url : string) : M T :=
  fun w =>
    match net w url with
    | Aborted => (Throw AbortError, w)
    | NetworkFailure => (Throw TypeError, w)
    | Status code body =>
        if (200 <=? code)%Z && (code <=? 299)%Z then
          match body with
          | Some v => (Ok v, w)
          | None => (Throw SyntaxError, w)
          end
        else (Throw (Error ("HTTP " +:+ pretty code)), w)
    end.

(** ** Tracker *)

Record TrackerState : Type := {
  current : gmap Z WindPayload;
  historic : gmap Z (list HistoricPoint)
}.

(** [if (baseUrl)]: [undefined] and the empty string are falsy. *)
Definition truthy (baseUrl : option string) : option string :=
  match baseUrl with
  | Some EmptyString => None
  | other => other
  end.

Definition set_dateTime (payload : WindPayload) (d : string) : WindPayload :=
  {| stationId := stationId payload; stationName := stationName payload;
     dateTime := d; wind := wind payload;
     humidity := humidity payload; pressure := pressure payload;
     rain := rain payload; temperature := temperature payload |}.

(** [for (const key of stations) body] over an accumulator. *)
Fixpoint for_of {A S} (l : list A) (body : A -> S -> M S) (s : S) : M S :=
  match l with
  | [] => ret s
  | x :: l' => let* s' := body x s in for_of l' body s'
  end.

(** The two addresses: [`${baseUrl.replace(/\/$/, "")}/current?stationId=${id}`]
    and [`${baseUrl.replace(/\/$/, "")}/historic?stationId=${id}&hours=6`]. *)
Definition current_url (baseUrl : string) (id : Z) : string :=
  strip_trailing_slash baseUrl +:+ "/current?stationId=" +:+ pretty id.

Definition historic_url (baseUrl : string) (id : Z) : string :=
  strip_trailing_slash baseUrl +:+ "/historic?stationId=" +:+ pretty id +:+ "&hours=6".

Section Tracker.
Context {fmt : DateFns}.

(** The first [try]/[catch] of the loop body: this station's entry of
    [nextCurrent].  [state] is the state the closure holds. *)
Definition resolve_current (baseUrl : option string) (state : TrackerState)
    (key : station_key) (nextCurrent : gmap Z WindPayload) : M (gmap Z WindPayload) :=
  let id := station_id (STATIONS key) in
  try_catch
    (match truthy baseUrl with
     | Some url =>
         let* payload := fetchJSON http_current (current_url url id) in
         let payload := set_dateTime payload (toISO (dateTime payload)) in
         ret (<[id := payload]> nextCurrent)
     | None =>
         let* payload := simulateCurrent key (current state !! id) in
         ret (<[id := payload]> nextCurrent)
     end)
    (let* payload := simulateCurrent key (current state !! id) in
     ret (<[id := payload]> nextCurrent)).

(** [simulateHistoric(nextCurrent[id])]: reading [.wind] of [undefined] throws. *)
Definition simulateHistoric_of (entry : option WindPayload) : M (list HistoricPoint) :=
  match entry with
  | Some payload => simulateHistoric payload default_minutes
  | None => throw TypeError
  end.

(** The second [try]/[catch]: this station's entry of [nextHistoric]. *)
Definition resolve_historic (baseUrl : option string) (key : station_key)
    (nextCurrent : gmap Z WindPayload) (nextHistoric : gmap Z (list HistoricPoint))
  : M (gmap Z (list HistoricPoint)) :=
  let id := station_id (STATIONS key) in
  try_catch
    (match truthy baseUrl with
     | Some url =>
         let* pts := fetchJSON http_historic (historic_url url id) in
         ret (<[id := pts]> nextHistoric)
     | None =>
         let* pts := simulateHistoric_of (nextCurrent !! id) in
         ret (<[id := pts]> nextHistoric)
     end)
    (let* pts := simulateHistoric_of (nextCurrent !! id) in
     ret (<[id := pts]> nextHistoric)).

Definition poll_station (baseUrl : option string) (state : TrackerState)
    (key : station_key) (next : TrackerState) : M TrackerState :=
  let* nextCurrent := resolve_current baseUrl state key (current next) in
  let* nextHistoric := resolve_historic baseUrl key nextCurrent (historic next) in
  ret {| current := nextCurrent; historic := nextHistoric |}.

(** One poll cycle.  The result is what [setCurrent] and [setHistoric]
    receive. *)
Definition fetchAll (baseUrl : option string) (state : TrackerState) : M TrackerState :=
  let stations := [drobak; lysaker] in
  let next := {| current := current state; historic := historic state |} in
  for_of stations (poll_station baseUrl state) next.

End Tracker.

(** ** Derived values of the hook *)

(** Simple trend: the slope over the last [lookback] historic points.
    [lookback] is a whole number, as at the two calls of the source (both
    take the default); [points] is an array, so [!points] is false. *)
Definition slope (points : list HistoricPoint) (lookback : Z) : number :=
  if (Z.of_nat (length points) <? lookback)%Z then Num 0
  else
    let tail := Array_slice points (- lookback) in
    let first := from_option hp_speed (Num 0) (Array_get tail 0) in
    let last :=
      from_option hp_speed (Num 0) (Array_get tail (Z.of_nat (length tail) - 1)) in
    ((last - first) / Num (inject_Z lookback))%js.

(** The default of the parameter: [lookback = 6]. *)
Definition default_lookback : Z := 6.

(** The values [useWindTracker] derives from its state on each render. *)
Module Hook.

Definition drobakHist (state : TrackerState) : list HistoricPoint :=
  default [] (historic state !! station_id (STATIONS drobak)).

Definition lysakerHist (state : TrackerState) : list HistoricPoint :=
  default [] (historic state !! station_id (STATIONS lysaker)).

Definition lysaker (state : TrackerState) : option WindPayload :=
  current state !! station_id (STATIONS lysaker).

Definition drobak (state : TrackerState) : option WindPayload :=
  current state !! station_id (STATIONS drobak).

Definition drobakSlope (state : TrackerState) : number :=
  slope (drobakHist state) default_lookback.

Definition lysakerSlope (state : TrackerState) : number :=
  slope (lysakerHist state) default_lookback.

Definition isBuildingAtDrobak (state : TrackerState) : bool :=
  match drobak state with
  | Some d => (drobakSlope state >? Num 0.08)%js && (wind_speed (wind d) >=? Num 4)%js
  | None => false
  end.

(** Simple propagation estimate Drøbak -> Lysaker. *)
Definition distanceKm : number := Num 25.

(** The body of the memo, a function of its two dependencies; [None] is
    [null]. *)
Definition etaMinutes_of (drobak : option WindPayload) (isBuildingAtDrobak : bool)
  : option number :=
  let spd := from_option (fun d => wind_speed (wind d)) (Num 0) drobak in
  if negb isBuildingAtDrobak || (spd <=? Num 0.5)%js then None
  else
    (* front speed ~ baseline + factor * wind *)
    let frontKmh := clamp (Num 10 + spd * Num 1.5)%js (Num 8) (Num 45) in
    Some (Js.Math_round ((distanceKm / frontKmh) * Num 60)%js).

Definition etaMinutes (state : TrackerState) : option number :=
  etaMinutes_of (drobak state) (isBuildingAtDrobak state).

End Hook.

(** ** The page: the "Trend" sub-labels of the two station cards *)

Module Page.

Definition drobakTrendSub (state : TrackerState) : string :=
  if Hook.isBuildingAtDrobak state then "Building" else "Stable/Calm".

(** The difference shown as the Lysaker trend and tested for its label:
    the current speed minus the speed of the sixth point from the end. *)
Definition lysakerTrend (state : TrackerState) : number :=
  (from_option (fun l => wind_speed (wind l)) (Num 0) (Hook.lysaker state)
   - from_option hp_speed (Num 0) (Array_at (Hook.lysakerHist state) (-6)))%js.

Definition lysakerTrendSub (state : TrackerState) : string :=
  if (lysakerTrend state >? Num 0.08)%js then "Building" else "Stable/Calm".

End Page.

(** ** Compass points *)

(** The argument of [degToCardinal(deg?: number)]. *)
Inductive optional_number : Type :=
  | undefined
  | null
  | Value (deg : number).

Definition dirs : list string :=
  ["N"; "NNE"; "NE"; "ENE"; "E"; "ESE"; "SE"; "SSE";
   "S"; "SSW"; "SW"; "WSW"; "W"; "WNW"; "NW"; "NNW"].

(** The index computed by [degToCardinal]. *)
Definition cardinal_index (deg : number) : number :=
  (Js.Math_round ((deg mod Num 360) / Num 22.5) mod Num 16)%js.

(** [None] is the [undefined] of an index outside [dirs]. *)
Definition degToCardinal (deg : optional_number) : option string :=
  match deg with
  | undefined | null => Some "N/A"
  | Value d =>
      if Js.Number_isNaN d then Some "N/A"
      else Array_index dirs (cardinal_index d)
  end.

(** ** Gear estimator *)

Record Gear : Type := {
  sailM2 : number;
  boardWidthCm : number;
  finCm : number
}.

(** The two local helpers [round] and [roundInt]: the same rule. *)
Definition round_step (n step : number) : number :=
  (Js.Math_round (n / step) * step)%js.

Definition recommendGear (weightKg windMs : number) : Gear :=
  (* Approximate mapping inspired by example *)
  let sail :=
    clamp (Num 12 - Num 0.45 * windMs - Num 0.012 * (weightKg - Num 75))%js
          (Num 4.0) (Num 9.8) in
  let boardWidth :=
    clamp (Num 112 - Num 3.2 * windMs - Num 0.12 * (weightKg - Num 75))%js
          (Num 58) (Num 100) in
  let fin := clamp (Num 54 - Num 2.2 * windMs)%js (Num 28) (Num 52) in
  (* Round to typical sizes *)
  {| sailM2 := Number (toFixed (round_step sail (Num 0.2)) 1);
     boardWidthCm := round_step boardWidth (Num 1);
     finCm := round_step fin (Num 1) |}.

(** ** The rational counterparts used in the statements *)

(** The clamp of a rational: [min(hi, max(lo, x))]. *)
Definition Qclamp (x lo hi : Q) : Q :=
  let m := if Qle_bool lo x then x else lo in
  if Qle_bool hi m then hi else m.

(** The nearest integer, a tie going up. *)
Definition Qround_half_up (x : Q) : Z := Qfloor (x + (1 # 2)).

(** The three clamped sizes of the gear estimator, before rounding. *)
Definition sail_size (weightKg windMs : Q) : Q :=
  Qclamp (12 - 0.45 * windMs - 0.012 * (weightKg - 75)) 4.0 9.8.

Definition board_size (weightKg windMs : Q) : Q :=
  Qclamp (112 - 3.2 * windMs - 0.12 * (weightKg - 75)) 58 100.

Definition fin_size (windMs : Q) : Q :=
  Qclamp (54 - 2.2 * windMs) 28 52.

(** [reading?.wind.speed ?? 0] *)
Definition speed_or_0 (reading : option WindPayload) : number :=
  from_option (fun d => wind_speed (wind d)) (Num 0) reading.

(** The speed of the sixth point from the end, [0] when the series has
    fewer than six points. *)
Definition sixth_from_end (points : list HistoricPoint) : number :=
  if (length points <? 6)%nat then Num 0
  else from_option hp_speed (Num 0) (points !! (length points - 6)%nat).

(** [tail] is the last [n] points of [points]. *)
Definition last_points (points : list HistoricPoint) (n : Z) (tail : list HistoricPoint)
  : Prop :=
  Z.of_nat (length tail) = n /\ exists front, points = front ++ tail.

(** A fetch fails: [fetchJSON] throws, whatever the reason. *)
Definition fetch_fails {T} (net : World -> string -> response T) (url : string)
    (w : World) : Prop :=
  exists e : exn, fetchJSON net url w = (Throw e, w).

(** ** The simulator in direct style

    The draws of [simulateCurrent] in the order the source makes them;
    [after_speed] is the world once the speed is known.  That these are
    what the monadic code computes is [simulateCurrent_returns]. *)

Definition after_speed (prev : option WindPayload) (w : World) : World :=
  match prev with
  | Some _ => next_random w
  | None => next_random (next_random w)
  end.

Definition next_speed (station : station_key) (prev : option WindPayload) (w : World)
  : number :=
  let drift :=
    match station with
    | drobak => Num (random_tape w 0 * (0.9 + - (-0.3)) + (-0.3))
    | lysaker => Num (random_tape w 0 * (0.6 + - (-0.4)) + (-0.4))
    end in
  let baseSpeed := match station with drobak => Num 5 | lysaker => Num 3 end in
  let prevSpeed :=
    match prev with
    | Some p => wind_speed (wind p)
    | None => (baseSpeed + Num (random_tape w 1 * (1 + - (-1)) + (-1)))%js
    end in
  clamp (prevSpeed + drift)%js (Num 0) (Num 20).

Definition next_wind (station : station_key) (prev : option WindPayload) (w : World)
  : Wind :=
  let speed := next_speed station prev w in
  let w1 := after_speed prev w in
  let g := Num (random_tape w1 0 * (2.5 + - 0.2) + 0.2) in
  let m := Num (random_tape w1 1 * (1 + - 0.1) + 0.1) in
  {| wind_speed := speed;
     wind_gust := clamp (speed + g)%js speed (speed + Num 4)%js;
     wind_min := clamp (speed - m)%js (Num 0) speed;
     wind_unit := "m/s";
     wind_direction :=
       match station with
       | drobak => (Num 190 + Num (random_tape w1 2 * (20 + - (-20)) + (-20)))%js
       | lysaker => (Num 200 + Num (random_tape w1 2 * (25 + - (-25)) + (-25)))%js
       end |}.

(** One turn of the loop of [simulateHistoric]: the new speed and gust, and
    the point pushed ([simulateHistoric_loop_step]). *)
Definition step_speed (speed : number) (w : World) : number :=
  clamp (speed + Num (random_tape w 0 * (0.6 + - (-0.5)) + (-0.5)))%js (Num 0) (Num 22).

Definition step_gust (speed' gust : number) (w : World) : number :=
  clamp (Js.Math_max gust speed' + Num (random_tape w 1 * (0.9 + - (-0.4)) + (-0.4)))%js
        speed' (speed' + Num 5)%js.

Definition step_point {fmt : DateFns} (now i : Z) (speed gust : number) (w : World)
  : HistoricPoint :=
  let speed' := step_speed speed w in
  {| hp_t := formatISO (now - i * 60000)%Z;
     hp_speed := Number (toFixed speed' 2);
     hp_gust := Number (toFixed (step_gust speed' gust w) 2) |}.

(** A point whose speed and gust are a speed of [0, 22] and a gust of
    [speed, speed + 5], both rounded to the nearest hundredth. *)
Definition rounded_point (pt : HistoricPoint) : Prop :=
  exists s g : Q,
    (0 <= s <= 22)%Q /\ (s <= g <= s + 5)%Q /\
    hp_speed pt = Num (inject_Z (Qround_half_up (s * 100)) / 100) /\
    hp_gust pt = Num (inject_Z (Qround_half_up (g * 100)) / 100).

(** ** Concrete inputs *)

Definition reading (id : Z) (speed : Q) : WindPayload :=
  {| stationId := id; stationName := ""; dateTime := "2024-05-01T12:00:00";
     wind := {| wind_speed := Num speed; wind_gust := Num speed;
                wind_min := Num speed; wind_unit := "m/s";
                wind_direction := Num 200 |};
     humidity := None; pressure := None; rain := None; temperature := None |}.

Definition point (speed : Q) : HistoricPoint :=
  {| hp_t := "2024-05-01T12:00:00"; hp_speed := Num speed; hp_gust := Num speed |}.

(** Lysaker blows a steady 4.9 m/s over the last six samples and reads
    5 m/s now. *)
Definition steady_lysaker : TrackerState :=
  {| current := {[ 201%Z := reading 201 5 ]};
     historic := {[ 201%Z := [point 4.9; point 4.9; point 4.9;
                              point 4.9; point 4.9; point 4.9] ]} |}.

(** Drøbak rises from 1 to 6 m/s over the last six samples and reads
    6 m/s now. *)
Definition rising_drobak : TrackerState :=
  {| current := {[ 101%Z := reading 101 6 ]};
     historic := {[ 101%Z := [point 1; point 2; point 3;
                              point 4; point 5; point 6] ]} |}.

(** A rendering of instants that keeps them apart: the decimal text of the
    milliseconds. *)
Definition epoch_text : DateFns := fun ms => pretty ms.

(** A world whose random tape reads 1/2 throughout, whose clock stands at
    2024-05-01T12:00:00Z and whose network is down. *)
Definition offline_world : World :=
  {| random_tape := fun _ => 1 # 2;
     clock_tape := fun _ => 1714564800000%Z;
     http_current := fun _ => Aborted;
     http_historic := fun _ => NetworkFailure |}.

(** * Properties *)

(** ** Rationals *)

Section Rationals.
Local Open Scope Q_scope.

Lemma Qle_bool_false (a b : Q) : Qle_bool a b = false -> b < a.
Proof.
  intros E. apply Qnot_le_lt. intros L.
  apply Qle_bool_iff in L. congruence.
Qed.

Lemma Qltb_true (a b : Q) : Js.Qltb a b = true <-> a < b.
Proof.
  unfold Js.Qltb. split.
  - intros E. apply Qle_bool_false. now destruct (Qle_bool b a).
  - intros L. destruct (Qle_bool b a) eqn:E; [|reflexivity].
    apply Qle_bool_iff in E. exfalso. apply (Qlt_not_le _ _ L E).
Qed.

Lemma Qltb_false (a b : Q) : Js.Qltb a b = false <-> b <= a.
Proof.
  unfold Js.Qltb. rewrite <- Qle_bool_iff.
  destruct (Qle_bool b a); simpl; intuition congruence.
Qed.

Lemma Qeqb_true (a b : Q) : Js.Qeqb a b = true <-> a == b.
Proof. apply Qeq_bool_iff. Qed.

Lemma Qeqb_false (a b : Q) : Js.Qeqb a b = false <-> ~ a == b.
Proof.
  rewrite <- Qeqb_true. destruct (Js.Qeqb a b); intuition congruence.
Qed.

Lemma Qclamp_minmax (x lo hi : Q) : Qclamp x lo hi == Qmin hi (Qmax lo x).
Proof.
  unfold Qclamp.
  destruct (Qle_bool lo x) eqn:E1.
  - apply Qle_bool_iff in E1. rewrite (Q.max_r lo x E1).
    destruct (Qle_bool hi x) eqn:E2.
    + apply Qle_bool_iff in E2. now rewrite (Q.min_l hi x E2).
    + apply Qle_bool_false in E2. now rewrite (Q.min_r hi x (Qlt_le_weak _ _ E2)).
  - apply Qle_bool_false in E1. rewrite (Q.max_l lo x (Qlt_le_weak _ _ E1)).
    destruct (Qle_bool hi lo) eqn:E2.
    + apply Qle_bool_iff in E2. now rewrite (Q.min_l hi lo E2).
    + apply Qle_bool_false in E2. now rewrite (Q.min_r hi lo (Qlt_le_weak _ _ E2)).
Qed.

Lemma Qclamp_bounds (x lo hi : Q) : lo <= hi -> lo <= Qclamp x lo hi <= hi.
Proof.
  intros L. unfold Qclamp.
  destruct (Qle_bool lo x) eqn:E1;
    [apply Qle_bool_iff in E1 | apply Qle_bool_false in E1];
    match goal with |- context [Qle_bool ?a ?b] => destruct (Qle_bool a b) eqn:E2 end;
    try apply Qle_bool_iff in E2; try apply Qle_bool_false in E2; lra.
Qed.

(** Inside the bounds the clamp is the identity. *)
Lemma Qclamp_inside (x lo hi : Q) : lo <= x -> x < hi -> Qclamp x lo hi = x.
Proof.
  intros L1 L2. unfold Qclamp.
  destruct (Qle_bool lo x) eqn:E1; [|apply Qle_bool_false in E1; lra].
  destruct (Qle_bool hi x) eqn:E2; [apply Qle_bool_iff in E2; lra|reflexivity].
Qed.

Lemma Qclamp_mono (x y lo hi : Q) : x <= y -> Qclamp x lo hi <= Qclamp y lo hi.
Proof.
  intros L. unfold Qclamp.
  destruct (Qle_bool lo x) eqn:E1, (Qle_bool lo y) eqn:E2;
    [apply Qle_bool_iff in E1 | apply Qle_bool_iff in E1
    | apply Qle_bool_false in E1 | apply Qle_bool_false in E1];
    [apply Qle_bool_iff in E2 | apply Qle_bool_false in E2
    | apply Qle_bool_iff in E2 | apply Qle_bool_false in E2];
    repeat match goal with
           | |- context [Qle_bool ?a ?b] =>
               let E := fresh "E" in
               destruct (Qle_bool a b) eqn:E;
               [apply Qle_bool_iff in E | apply Qle_bool_false in E]
           end; lra.
Qed.

Lemma Qfloor_unique (x : Q) (z : Z) :
  inject_Z z <= x -> x < inject_Z (z + 1) -> Qfloor x = z.
Proof.
  intros L U.
  pose proof (Qfloor_le x) as F1. pose proof (Qlt_floor x) as F2.
  assert (inject_Z z < inject_Z (Qfloor x + 1)) as A by lra.
  assert (inject_Z (Qfloor x) < inject_Z (z + 1)) as B by lra.
  rewrite <- Zlt_Qlt in A, B. lia.
Qed.

Lemma Qround_half_up_Z (z : Z) : Qround_half_up (inject_Z z) = z.
Proof.
  apply Qfloor_unique; rewrite ?inject_Z_plus; change (inject_Z 1) with 1; lra.
Qed.

(** The nearest integer is within one half. *)
Lemma Qround_half_up_near (x : Q) :
  x - (1 # 2) < inject_Z (Qround_half_up x) <= x + (1 # 2).
Proof.
  unfold Qround_half_up.
  pose proof (Qfloor_le (x + (1 # 2))) as F1.
  pose proof (Qlt_floor (x + (1 # 2))) as F2.
  rewrite inject_Z_plus in F2. change (inject_Z 1) with 1 in F2. lra.
Qed.

Lemma Qround_half_up_mono (x y : Q) : x <= y -> (Qround_half_up x <= Qround_half_up y)%Z.
Proof. intros L. apply Qfloor_resp_le. lra. Qed.

(** Rounding cannot leave an interval whose ends are integers. *)
Lemma Qround_half_up_between (x : Q) (lo hi : Z) :
  inject_Z lo <= x -> x <= inject_Z hi ->
  (lo <= Qround_half_up x <= hi)%Z.
Proof.
  intros L U. split.
  - rewrite <- (Qround_half_up_Z lo). now apply Qround_half_up_mono.
  - rewrite <- (Qround_half_up_Z hi). now apply Qround_half_up_mono.
Qed.

End Rationals.

(** ** Numbers *)

Section Numbers.
Local Open Scope Q_scope.

Lemma num_eq_refl (x : number) : x =n= x.
Proof. destruct x; simpl; auto with qarith. Qed.

Lemma num_eq_sym (x y : number) : x =n= y -> y =n= x.
Proof. destruct x, y; simpl; auto with qarith. Qed.

Lemma num_eq_trans (x y z : number) : x =n= y -> y =n= z -> x =n= z.
Proof.
  destruct x, y, z; simpl; try tauto. intros A B. now rewrite A.
Qed.

Lemma clamp_Num (n lo hi : Q) : clamp (Num n) (Num lo) (Num hi) = Num (Qclamp n lo hi).
Proof.
  unfold clamp, Qclamp, Js.Math_max, Js.Math_min, Js.leb.
  destruct (Qle_bool lo n); destruct (Qle_bool hi _); reflexivity.
Qed.

Lemma div_Num (a b : Q) : ~ b == 0 -> (Num a / Num b)%js = Num (a / b).
Proof.
  intros N. unfold Js.div. apply Qeqb_false in N. now rewrite N.
Qed.

Lemma Math_round_Num (a : Q) : Js.Math_round (Num a) = Num (inject_Z (Qround_half_up a)).
Proof. reflexivity. Qed.

Lemma round_step_Num (n step : Q) :
  ~ step == 0 ->
  round_step (Num n) (Num step) = Num (inject_Z (Qround_half_up (n / step)) * step).
Proof.
  intros N. unfold round_step. now rewrite (div_Num _ _ N).
Qed.

Lemma pow10_pos (f : nat) : 0 < pow10 f.
Proof.
  unfold pow10. change 0 with (inject_Z 0). rewrite <- Zlt_Qlt.
  apply Z.pow_pos_nonneg; lia.
Qed.

(** [Number(x.toFixed(f))] on a non-negative value below 10^21: the
    nearest multiple of [10^-f]. *)
Lemma Number_toFixed_nonneg (a : Q) (f : nat) :
  0 <= a -> a < inject_Z (10 ^ 21) ->
  Number (toFixed (Num a) f) = Num (inject_Z (Qround_half_up (a * pow10 f)) / pow10 f).
Proof.
  intros P B. unfold toFixed.
  assert (Qabs a == a) as A by now apply Qabs_pos.
  destruct (Qle_bool _ (Qabs a)) eqn:E.
  - apply Qle_bool_iff in E. rewrite A in E. lra.
  - assert (Js.Qltb a 0 = false) as -> by now apply Qltb_false.
    cbn [Number]. unfold Qround_half_up.
    now rewrite (Qfloor_comp (Qabs a * pow10 f + (1 # 2)) (a * pow10 f + (1 # 2)))
      by now rewrite A.
Qed.

Lemma Number_toFixed_mono (a b : Q) (f : nat) :
  0 <= a -> a <= b -> b < inject_Z (10 ^ 21) ->
  exists x y : Q,
    Number (toFixed (Num a) f) = Num x /\ Number (toFixed (Num b) f) = Num y /\
    0 <= x /\ x <= y.
Proof.
  intros P L B.
  rewrite !Number_toFixed_nonneg by lra.
  eexists _, _. split; [reflexivity|]. split; [reflexivity|].
  pose proof (pow10_pos f) as T.
  assert (0 <= a * pow10 f) as Pa by (apply Qmult_le_0_compat; lra).
  assert (a * pow10 f <= b * pow10 f) as Lab by (apply Qmult_le_compat_r; lra).
  pose proof (Qround_half_up_mono _ _ Lab) as M.
  pose proof (Qround_half_up_mono 0 _ Pa) as M0.
  change (Qround_half_up 0) with 0%Z in M0.
  rewrite Zle_Qle in M, M0. change (inject_Z 0) with 0 in M0.
  split.
  - apply Qle_shift_div_l; [exact T|]. lra.
  - apply Qmult_le_compat_r; [exact M|]. apply Qinv_le_0_compat. lra.
Qed.

End Numbers.

(** ** Gear estimator *)

Section Gear.
Local Open Scope Q_scope.

(** What [recommendGear] computes on finite arguments, with the integers
    chosen by [Math.round] and by [toFixed] made explicit. *)
Lemma recommendGear_Num (weightKg windMs : Q) :
  recommendGear (Num weightKg) (Num windMs) =
    {| sailM2 :=
         Num (inject_Z (2 * Qround_half_up (sail_size weightKg windMs / 0.2)) / pow10 1);
       boardWidthCm :=
         Num (inject_Z (Qround_half_up (board_size weightKg windMs / 1)) * 1);
       finCm := Num (inject_Z (Qround_half_up (fin_size windMs / 1)) * 1) |}.
Proof.
  unfold recommendGear. cbn [Js.sub Js.add Js.neg Js.mul].
  rewrite !clamp_Num.
  rewrite !round_step_Num by (intros E; discriminate E).
  fold (Qminus 12 (0.45 * windMs)) (Qminus (12 - 0.45 * windMs) (0.012 * (weightKg + - (75)))).
  fold (Qminus weightKg 75).
  fold (Qminus 112 (3.2 * windMs)).
  fold (Qminus (112 - 3.2 * windMs) (0.12 * (weightKg - 75))).
  fold (Qminus 54 (2.2 * windMs)).
  fold (sail_size weightKg windMs) (board_size weightKg windMs) (fin_size windMs).
  f_equal.
  pose proof (Qclamp_bounds (12 - 0.45 * windMs - 0.012 * (weightKg - 75)) 4.0 9.8
                ltac:(lra)) as B.
  fold (sail_size weightKg windMs) in B.
  set (s := sail_size weightKg windMs) in *.
  assert (20 <= Qround_half_up (s / 0.2) <= 49)%Z as K.
  { assert (s / 0.2 == s * 5) as E by field.
    apply Qround_half_up_between; rewrite E.
    - change (inject_Z 20) with 20. lra.
    - change (inject_Z 49) with 49. lra. }
  set (k := Qround_half_up (s / 0.2)) in *.
  rewrite Zle_Qle in K. rewrite (Zle_Qle k) in K.
  change (inject_Z 20) with 20 in K. change (inject_Z 49) with 49 in K.
  rewrite Number_toFixed_nonneg.
  - do 2 f_equal. unfold Qround_half_up. apply f_equal.
    rewrite <- (Qround_half_up_Z (2 * k)). unfold Qround_half_up. apply Qfloor_comp.
    rewrite inject_Z_mult. change (inject_Z 2) with 2. change (pow10 1) with 10. lra.
  - lra.
  - change (inject_Z (10 ^ 21)) with 1000000000000000000000. lra.
Qed.

Lemma sail_size_bounds (weightKg windMs : Q) : 4.0 <= sail_size weightKg windMs <= 9.8.
Proof. apply Qclamp_bounds. lra. Qed.

Lemma board_size_bounds (weightKg windMs : Q) : 58 <= board_size weightKg windMs <= 100.
Proof. apply Qclamp_bounds. lra. Qed.

Lemma fin_size_bounds (windMs : Q) : 28 <= fin_size windMs <= 52.
Proof. apply Qclamp_bounds. lra. Qed.


(** C8. For all (finite) inputs, negative and extreme ones included,
    [recommendGear] yields finite sizes inside the clamp bounds: rounding
    after clamping does not leave them; at weight 200 and wind 50 all
    three sizes sit on their floor. *)
Theorem recommendGear_within_bounds (weightKg windMs : Q) :
  let g := recommendGear (Num weightKg) (Num windMs) in
  (exists s b f : Q,
     sailM2 g = Num s /\ boardWidthCm g = Num b /\ finCm g = Num f /\
     4.0 <= s <= 9.8 /\ 58 <= b <= 100 /\ 28 <= f <= 52) /\
  (let g0 := recommendGear (Num 200) (Num 50) in
   sailM2 g0 =n= Num 4.0 /\ boardWidthCm g0 =n= Num 58 /\ finCm g0 =n= Num 28).
Proof.
  intros g. subst g. split.
  - rewrite recommendGear_Num. cbn [sailM2 boardWidthCm finCm].
    eexists _, _, _. do 3 (split; [reflexivity|]).
    assert (forall x, Qround_half_up (x / 1) = Qround_half_up x) as D.
    { intros x. unfold Qround_half_up. apply Qfloor_comp. field. }
    rewrite !D.
    pose proof (sail_size_bounds weightKg windMs) as Bs.
    pose proof (board_size_bounds weightKg windMs) as Bb.
    pose proof (fin_size_bounds windMs) as Bf.
    assert (20 <= Qround_half_up (sail_size weightKg windMs / 0.2) <= 49)%Z as Ks.
    { assert (sail_size weightKg windMs / 0.2 == sail_size weightKg windMs * 5) as E
        by field.
      apply Qround_half_up_between; rewrite E.
      - change (inject_Z 20) with 20. lra.
      - change (inject_Z 49) with 49. lra. }
    assert (58 <= Qround_half_up (board_size weightKg windMs) <= 100)%Z as Kb.
    { apply Qround_half_up_between.
      - change (inject_Z 58) with 58. lra.
      - change (inject_Z 100) with 100. lra. }
    assert (28 <= Qround_half_up (fin_size windMs) <= 52)%Z as Kf.
    { apply Qround_half_up_between.
      - change (inject_Z 28) with 28. lra.
      - change (inject_Z 52) with 52. lra. }
    destruct Ks as [Ks1 Ks2], Kb as [Kb1 Kb2], Kf as [Kf1 Kf2].
    rewrite Zle_Qle in Ks1, Ks2, Kb1, Kb2, Kf1, Kf2.
    set (ks := Qround_half_up (sail_size weightKg windMs / 0.2)) in *.
    rewrite inject_Z_mult. change (inject_Z 2) with 2. change (pow10 1) with 10.
    unfold Qdiv. change (/ 10) with (1 # 10).
    change (inject_Z 20) with 20 in Ks1. change (inject_Z 49) with 49 in Ks2.
    change (inject_Z 58) with 58 in Kb1. change (inject_Z 100) with 100 in Kb2.
    change (inject_Z 28) with 28 in Kf1. change (inject_Z 52) with 52 in Kf2.
    repeat split; lra.
  - repeat split; vm_compute; reflexivity.
Qed.

(** Outside the finite numbers the clamps do not help: NaN goes through. *)
Example recommendGear_NaN :
  sailM2 (recommendGear NaN (Num 6)) = NaN /\
  boardWidthCm (recommendGear NegInfinity Infinity) = NaN.
Proof. split; reflexivity. Qed.

End Gear.

(** ** Derived values: the building flag and the estimated arrival *)

Section Eta.
Local Open Scope Q_scope.

Lemma Qclamp_comp (x y lo hi : Q) : x == y -> Qclamp x lo hi == Qclamp y lo hi.
Proof.
  intros E. unfold Qclamp. rewrite (Qleb_comp lo lo (Qeq_refl lo) x y E).
  destruct (Qle_bool lo y).
  - rewrite (Qleb_comp hi hi (Qeq_refl hi) x y E).
    now destruct (Qle_bool hi y).
  - reflexivity.
Qed.

(** The minutes for a front speed between 8 and 45 km/h. *)
Lemma eta_positive (frontKmh : Q) :
  8 <= frontKmh <= 45 -> (33 <= Qround_half_up (25 / frontKmh * 60) <= 188)%Z.
Proof.
  intros [L U].
  assert (25 / frontKmh * 60 == 1500 / frontKmh) as E by (field; lra).
  apply Qround_half_up_between; rewrite E.
  - apply Qle_shift_div_l; [lra|]. change (inject_Z 33) with 33. lra.
  - apply Qle_shift_div_r; [lra|]. change (inject_Z 188) with 188. lra.
Qed.

(** C1. For every upstream reading and building flag, [etaMinutes] is
    null when the flag is false or the upstream speed is at most 0.5;
    when the flag is true and the speed exceeds 0.5 it is
    [round(25 / clamp(10 + 1.5 * speed, 8, 45) * 60)], a positive integer;
    at speed 6 with the flag true it is 79. *)
Theorem etaMinutes_spec (drobak : option WindPayload) (isBuildingAtDrobak : bool) :
  let spd := speed_or_0 drobak in
  ((isBuildingAtDrobak = false \/ (spd <=? Num 0.5)%js = true) ->
   Hook.etaMinutes_of drobak isBuildingAtDrobak = None) /\
  (isBuildingAtDrobak = true -> (spd >? Num 0.5)%js = true ->
   exists n : Z,
     Hook.etaMinutes_of drobak isBuildingAtDrobak = Some (Num (inject_Z n)) /\
     (0 < n)%Z /\
     Num (inject_Z n) =
       Js.Math_round
         (Num 25 / clamp (Num 10 + Num 1.5 * spd) (Num 8) (Num 45) * Num 60)%js) /\
  (isBuildingAtDrobak = true -> spd = Num 6 ->
   Hook.etaMinutes_of drobak isBuildingAtDrobak = Some (Num 79)).
Proof.
  intros spd. unfold Hook.etaMinutes_of. fold (speed_or_0 drobak). fold spd.
  split; [|split].
  - intros [-> | ->]; [reflexivity|]. now rewrite orb_true_r.
  - intros -> G. unfold Js.gtb in G.
    destruct spd as [s| | |] eqn:S; try discriminate G.
    + cbn [Js.ltb] in G. apply Qltb_true in G.
      assert ((Num s <=? Num 0.5)%js = false) as ->.
      { cbn [Js.leb]. destruct (Qle_bool s 0.5) eqn:E; [|reflexivity].
        apply Qle_bool_iff in E. lra. }
      cbn [negb orb Js.mul Js.add]. rewrite !clamp_Num.
      pose proof (Qclamp_bounds (10 + s * 1.5) 8 45 ltac:(lra)) as B.
      pose proof (eta_positive _ B) as P.
      unfold Hook.distanceKm.
      pose proof (Qclamp_bounds (10 + 1.5 * s) 8 45 ltac:(lra)) as B'.
      rewrite !div_Num by lra.
      cbn [Js.mul]. rewrite !Math_round_Num.
      eexists. split; [reflexivity|]. split; [lia|].
      do 2 f_equal. unfold Qround_half_up. apply Qfloor_comp.
      rewrite (Qclamp_comp (10 + s * 1.5) (10 + 1.5 * s)) by ring.
      reflexivity.
    + exists 33%Z. repeat split.
  - intros -> ->. reflexivity.
Qed.

(** C6. With an upstream reading in the state, the building flag is true
    exactly when the slope of the upstream series exceeds 0.08 and the
    upstream speed is at least 4. *)
Theorem isBuildingAtDrobak_iff (state : TrackerState) (d : WindPayload) :
  Hook.drobak state = Some d ->
  (Hook.isBuildingAtDrobak state = true <->
   (slope (Hook.drobakHist state) default_lookback >? Num 0.08)%js = true /\
   (wind_speed (wind d) >=? Num 4)%js = true).
Proof.
  intros D. unfold Hook.isBuildingAtDrobak, Hook.drobakSlope. rewrite D.
  apply andb_true_iff.
Qed.

End Eta.

(** ** The Lysaker "Building" label *)

Section LysakerLabel.
Local Open Scope Q_scope.

(** C7 as stated fails: on [steady_lysaker] the card says "Building"
    while the slope of the Lysaker series is 0. *)
Lemma lysaker_label_is_not_slope :
  Page.lysakerTrendSub steady_lysaker = "Building" /\
  Hook.lysakerSlope steady_lysaker =n= Num 0 /\
  ~ (Page.lysakerTrendSub steady_lysaker = "Building" <->
     (Hook.lysakerSlope steady_lysaker >? Num 0.08)%js = true).
Proof.
  split; [reflexivity|]. split; [reflexivity|].
  intros [H _]. specialize (H eq_refl). vm_compute in H. discriminate H.
Qed.

Lemma Array_at_minus_6 (points : list HistoricPoint) :
  from_option hp_speed (Num 0) (Array_at points (-6)) = sixth_from_end points.
Proof.
  unfold Array_at, sixth_from_end.
  change (-6 >=? 0)%Z with false. cbn [orb].
  destruct (Nat.ltb_spec (length points) 6) as [L|L].
  - assert ((Z.of_nat (length points) + -6 <? 0)%Z = true) as ->
      by (apply Z.ltb_lt; lia).
    reflexivity.
  - assert ((Z.of_nat (length points) + -6 <? 0)%Z = false) as ->
      by (apply Z.ltb_ge; lia).
    assert ((Z.of_nat (length points) + -6 >=? Z.of_nat (length points))%Z = false) as ->
      by (rewrite Z.geb_leb; apply Z.leb_gt; lia).
    cbn [orb]. do 2 f_equal. lia.
Qed.

(** C7, amended. For every tracker state the Lysaker card says "Building"
    exactly when the Lysaker current speed ([0] without a reading) minus
    the speed of the sixth historic point from the end ([0] with fewer
    than six points) exceeds 0.08; no minimum speed is asked for, and the
    slope of the series is not consulted. *)
Theorem lysaker_label_iff (state : TrackerState) :
  Page.lysakerTrendSub state = "Building" <->
  (speed_or_0 (Hook.lysaker state)
     - sixth_from_end (Hook.lysakerHist state) >? Num 0.08)%js = true.
Proof.
  unfold Page.lysakerTrendSub, Page.lysakerTrend.
  rewrite Array_at_minus_6. fold (speed_or_0 (Hook.lysaker state)).
  destruct (_ >? _)%js; split; intros E; try reflexivity; discriminate E.
Qed.

End LysakerLabel.

(** ** Compass points *)

Section Compass.
Local Open Scope Q_scope.

Lemma Qtrunc_small (a : Q) : 0 <= a -> a < 1 -> Js.Qtrunc a = 0%Z.
Proof.
  intros P U. unfold Js.Qtrunc.
  rewrite (proj2 (Qle_bool_iff 0 a) P).
  apply Qfloor_unique; [exact P | exact U].
Qed.

(** On [0, 360) the remainder by 360 changes nothing. *)
Lemma rem_360 (deg : Q) :
  0 <= deg -> deg < 360 ->
  exists r : Q, (Num deg mod Num 360)%js = Num r /\ r == deg.
Proof.
  intros P U. unfold Js.rem.
  change (Js.Qeqb 360 0) with false. cbv iota.
  eexists. split; [reflexivity|].
  rewrite Qtrunc_small.
  - change (inject_Z 0) with 0. ring.
  - apply Qle_shift_div_l; lra.
  - apply Qlt_shift_div_r; lra.
Qed.

(** The sixteen sectors, and the wrap of the rounded index 16 to 0. *)
Lemma index_mod_16 (k : Z) :
  (0 <= k <= 16)%Z ->
  exists s : string,
    Array_index dirs (Num (inject_Z k) mod Num 16)%js = Some s /\
    dirs !! Z.to_nat (k mod 16) = Some s /\
    (Num (inject_Z k) mod Num 16)%js =n= Num (inject_Z (k mod 16)).
Proof.
  intros B.
  assert (k = 0 \/ k = 1 \/ k = 2 \/ k = 3 \/ k = 4 \/ k = 5 \/ k = 6 \/ k = 7 \/
          k = 8 \/ k = 9 \/ k = 10 \/ k = 11 \/ k = 12 \/ k = 13 \/ k = 14 \/
          k = 15 \/ k = 16)%Z as C by lia.
  repeat (destruct C as [-> | C]); [.. | subst k];
    (eexists; split; [vm_compute; reflexivity|]; split; reflexivity).
Qed.

(** C10. For every direction in [0, 360) the computed index lands in
    0..15 and [degToCardinal] returns one of the sixteen compass points;
    directions from 348.75 on wrap to "N"; [null], [undefined] and NaN
    give "N/A". *)
Theorem degToCardinal_compass :
  (forall deg : Q,
      0 <= deg -> deg < 360 ->
      exists (ix : nat) (s : string),
        cardinal_index (Num deg) =n= Num (inject_Z (Z.of_nat ix)) /\
        (ix < 16)%nat /\
        dirs !! ix = Some s /\
        degToCardinal (Value (Num deg)) = Some s /\
        (348.75 <= deg -> s = "N"%string)) /\
  degToCardinal null = Some "N/A"%string /\
  degToCardinal undefined = Some "N/A"%string /\
  degToCardinal (Value NaN) = Some "N/A"%string.
Proof.
  split; [|repeat split].
  intros deg P U.
  unfold degToCardinal. cbn [Js.Number_isNaN Js.is_NaN]. unfold cardinal_index.
  destruct (rem_360 deg P U) as (r & -> & E).
  rewrite div_Num by lra. rewrite Math_round_Num.
  assert (0 <= r / 22.5 <= 16) as [B1 B2].
  { rewrite E. split.
    - apply Qle_shift_div_l; lra.
    - apply Qle_shift_div_r; lra. }
  pose proof (Qround_half_up_between (r / 22.5) 0 16 B1 B2) as K.
  set (k := Qround_half_up (r / 22.5)) in *.
  destruct (index_mod_16 k K) as (s & A1 & A2 & A3).
  exists (Z.to_nat (k mod 16)), s.
  pose proof (Z.mod_pos_bound k 16 ltac:(lia)) as M.
  rewrite Z2Nat.id by lia.
  split; [exact A3|]. split; [lia|]. split; [exact A2|]. split; [exact A1|].
  intros N.
  assert (k = 16%Z) as K16.
  { apply Z.le_antisymm; [lia|].
    change 16%Z with (Qround_half_up (31 # 2)). apply Qround_half_up_mono.
    apply Qle_shift_div_l; lra. }
  rewrite K16 in A2. vm_compute in A2. congruence.
Qed.

End Compass.

(** ** Slope *)

Section Slope.

Lemma Array_slice_last {A} (front tail : list A) :
  tail <> [] ->
  Array_slice (front ++ tail) (- Z.of_nat (length tail)) = tail.
Proof.
  intros N. unfold Array_slice.
  assert (0 < length tail)%nat as L by (destruct tail; [congruence | simpl; lia]).
  assert ((- Z.of_nat (length tail) <? 0)%Z = true) as -> by (apply Z.ltb_lt; lia).
  rewrite length_app.
  replace (Z.to_nat _) with (length front) by lia.
  apply drop_app_length.
Qed.

Lemma Array_get_first {A} (l : list A) : Array_get l 0 = head l.
Proof. unfold Array_get. simpl. now destruct l. Qed.

Lemma Array_get_last {A} (l : list A) :
  Array_get l (Z.of_nat (length l) - 1) = last l.
Proof.
  unfold Array_get. destruct l as [|x l]; [reflexivity|].
  assert ((Z.of_nat (length (x :: l)) - 1 <? 0)%Z = false) as ->
    by (apply Z.ltb_ge; simpl; lia).
  rewrite last_lookup. f_equal. simpl. lia.
Qed.

(** A series of at least [lookback >= 1] points has its last [lookback]
    points, and these have a first and a last point. *)
Lemma last_points_exist (points : list HistoricPoint) (lookback : Z) :
  (1 <= lookback <= Z.of_nat (length points))%Z ->
  exists (tail : list HistoricPoint) (first_point last_point : HistoricPoint),
    last_points points lookback tail /\
    head tail = Some first_point /\ last tail = Some last_point.
Proof.
  intros [L U].
  set (n := (length points - Z.to_nat lookback)%nat).
  assert (length (drop n points) = Z.to_nat lookback) as Len
      by (rewrite length_drop; lia).
  destruct (drop n points) as [|x tail'] eqn:D; [simpl in Len; lia|].
  destruct (last (x :: tail')) as [y|] eqn:Y;
    [|apply last_None in Y; discriminate Y].
  exists (x :: tail'), x, y. split; [|split; [reflexivity|exact Y]].
  split; [lia|]. exists (take n points). now rewrite <- D, take_drop.
Qed.

(** With a lookback of 0 the slice is the whole series and the division
    is by zero. *)
Example slope_lookback_zero : slope [point 1; point 2] 0 = Infinity.
Proof. reflexivity. Qed.

(** C5. For every series and lookback, [slope] is exactly 0 when the
    series has fewer than [lookback] points; otherwise, with [first_point]
    and [last_point] the first and the last of the last [lookback] points
    (which exist from a lookback of 1 on), it is
    [(last_point.speed - first_point.speed) / lookback]; the default
    lookback is 6. *)
Theorem slope_spec (points : list HistoricPoint) (lookback : Z) :
  ((Z.of_nat (length points) < lookback)%Z -> slope points lookback = Num 0) /\
  (forall (tail : list HistoricPoint) (first_point last_point : HistoricPoint),
      (lookback <= Z.of_nat (length points))%Z ->
      last_points points lookback tail ->
      head tail = Some first_point ->
      last tail = Some last_point ->
      slope points lookback =
        ((hp_speed last_point - hp_speed first_point) / Num (inject_Z lookback))%js) /\
  ((1 <= lookback <= Z.of_nat (length points))%Z ->
   exists (tail : list HistoricPoint) (first_point last_point : HistoricPoint),
     last_points points lookback tail /\
     head tail = Some first_point /\ last tail = Some last_point /\
     slope points lookback =
       ((hp_speed last_point - hp_speed first_point) / Num (inject_Z lookback))%js) /\
  default_lookback = 6%Z.
Proof.
  assert (forall (tail : list HistoricPoint) (first_point last_point : HistoricPoint),
             (lookback <= Z.of_nat (length points))%Z ->
             last_points points lookback tail ->
             head tail = Some first_point ->
             last tail = Some last_point ->
             slope points lookback =
               ((hp_speed last_point - hp_speed first_point)
                / Num (inject_Z lookback))%js) as Main.
  { intros tail first lst L [Len [front ->]] Hf Hl. unfold slope.
    apply Z.ltb_ge in L. rewrite L. subst lookback.
    rewrite Array_slice_last by (intros ->; discriminate Hf).
    now rewrite Array_get_first, Array_get_last, Hf, Hl. }
  split; [|split; [exact Main|split; [|reflexivity]]].
  - intros L. unfold slope. apply Z.ltb_lt in L. now rewrite L.
  - intros B. destruct (last_points_exist points lookback B) as (tail & f & l & T & Hf & Hl).
    exists tail, f, l. repeat split; try assumption; try apply T.
    apply (Main tail f l); [lia | exact T | exact Hf | exact Hl].
Qed.

End Slope.

(** ** The monad *)

Section Monad.

Lemma bind_Ok {A B} (c : M A) (k : A -> M B) (w w' : World) (a : A) :
  c w = (Ok a, w') -> bind c k w = k a w'.
Proof. intros E. unfold bind. now rewrite E. Qed.

Lemma bind_Throw {A B} (c : M A) (k : A -> M B) (w w' : World) (e : exn) :
  c w = (Throw e, w') -> bind c k w = (Throw e, w').
Proof. intros E. unfold bind. now rewrite E. Qed.

Lemma bind_ext {A B} (c : M A) (k1 k2 : A -> M B) (w : World) :
  (forall a w', k1 a w' = k2 a w') -> bind c k1 w = bind c k2 w.
Proof.
  intros E. unfold bind. destruct (c w) as [[a|e] w']; [apply E | reflexivity].
Qed.

Lemma try_catch_Ok {A} (body handler : M A) (w w' : World) (a : A) :
  body w = (Ok a, w') -> try_catch body handler w = (Ok a, w').
Proof. intros E. unfold try_catch. now rewrite E. Qed.

Lemma try_catch_Throw {A} (body handler : M A) (w w' : World) (e : exn) :
  body w = (Throw e, w') -> try_catch body handler w = handler w'.
Proof. intros E. unfold try_catch. now rewrite E. Qed.

Lemma unit_tape_next_random (w : World) : unit_tape w -> unit_tape (next_random w).
Proof. intros U n. apply (U (S n)). Qed.

Lemma unit_tape_next_clock (w : World) : unit_tape w -> unit_tape (next_clock w).
Proof. intros U n. apply (U n). Qed.

(** [randBetween] draws once and stays between its bounds. *)
Lemma randBetween_Num (lo hi : Q) (w : World) :
  randBetween (Num lo) (Num hi) w
  = (Ok (Num (random_tape w 0 * (hi + - lo) + lo)), next_random w).
Proof. reflexivity. Qed.

Lemma randBetween_range (lo hi : Q) (w : World) :
  unit_tape w -> (lo <= hi)%Q ->
  (lo <= random_tape w 0 * (hi + - lo) + lo <= hi)%Q.
Proof.
  intros U L. destruct (U 0%nat) as [U0 U1].
  split.
  - assert (0 <= random_tape w 0 * (hi + - lo))%Q by (apply Qmult_le_0_compat; lra).
    lra.
  - assert (random_tape w 0 * (hi + - lo) <= 1 * (hi + - lo))%Q
      by (apply Qmult_le_compat_r; lra).
    lra.
Qed.

End Monad.

(** ** Simulator *)

Section SimulateCurrent.
Context {fmt : DateFns}.
Local Open Scope Q_scope.

(** A clamp between finite bounds of anything but NaN is finite. *)
Lemma clamp_bounds (x : number) (lo hi : Q) :
  x <> NaN -> lo <= hi ->
  exists c : Q, clamp x (Num lo) (Num hi) = Num c /\ lo <= c <= hi.
Proof.
  intros N L. destruct x as [q| | |]; [| | |congruence].
  - rewrite clamp_Num. eexists. split; [reflexivity|]. now apply Qclamp_bounds.
  - exists hi. split; [reflexivity|lra].
  - unfold clamp. cbn [Js.Math_max Js.Math_min Js.leb].
    destruct (Qle_bool hi lo) eqn:E.
    + apply Qle_bool_iff in E. exists hi. split; [reflexivity|lra].
    + exists lo. split; [reflexivity|lra].
Qed.

Lemma add_Num_not_NaN (x : number) (d : Q) : x <> NaN -> (x + Num d)%js <> NaN.
Proof. destruct x; cbn; congruence. Qed.

Lemma simulateCurrent_returns (station : station_key) (prev : option WindPayload)
    (w : World) :
  exists (reading : WindPayload) (w' : World),
    simulateCurrent station prev w = (Ok reading, w') /\
    wind reading = next_wind station prev w /\
    stationId reading = station_id (STATIONS station).
Proof.
  destruct station, prev as [p|];
    cbv beta iota zeta delta [simulateCurrent bind randBetween Math_random ret Date_now];
    eexists _, _; (split; [reflexivity|]); split; reflexivity.
Qed.

Lemma unit_tape_after_speed (prev : option WindPayload) (w : World) :
  unit_tape w -> unit_tape (after_speed prev w).
Proof.
  intros U. destruct prev; cbn; auto using unit_tape_next_random.
Qed.

Lemma next_speed_bounds (station : station_key) (prev : option WindPayload) (w : World) :
  (forall p, prev = Some p -> wind_speed (wind p) <> NaN) ->
  exists s : Q, next_speed station prev w = Num s /\ 0 <= s <= 20.
Proof.
  intros N. unfold next_speed. apply clamp_bounds; [|lra].
  destruct prev as [p|].
  - specialize (N p eq_refl). destruct station; now apply add_Num_not_NaN.
  - destruct station; cbn; congruence.
Qed.

(** C4. For every station and optional previous reading (whose speed is a
    number, not NaN) the simulated reading has gust >= speed >= min >= 0,
    a speed in [0, 20] and a direction in the band of its station:
    [170, 210] at Drøbak, [175, 225] at Lysaker. *)
Theorem simulateCurrent_invariant (station : station_key) (prev : option WindPayload)
    (w : World) :
  unit_tape w ->
  (forall p, prev = Some p -> wind_speed (wind p) <> NaN) ->
  exists (reading : WindPayload) (w' : World) (speed gust min direction : Q),
    simulateCurrent station prev w = (Ok reading, w') /\
    wind_speed (wind reading) = Num speed /\
    wind_gust (wind reading) = Num gust /\
    wind_min (wind reading) = Num min /\
    wind_direction (wind reading) = Num direction /\
    0 <= min /\ min <= speed /\ speed <= gust /\ speed <= 20 /\
    match station with
    | drobak => 170 <= direction <= 210
    | lysaker => 175 <= direction <= 225
    end.
Proof.
  intros U N.
  destruct (simulateCurrent_returns station prev w) as (reading & w' & R & W & _).
  destruct (next_speed_bounds station prev w N) as (s & S & Bs).
  pose proof (unit_tape_after_speed prev w U) as U1.
  set (w1 := after_speed prev w) in *.
  pose proof (unit_tape_next_random _ (unit_tape_next_random _ U1)) as U3.
  pose proof (Qclamp_bounds (s + (random_tape w1 0 * (2.5 + - 0.2) + 0.2)) s (s + 4)
                ltac:(lra)) as Bg.
  pose proof (Qclamp_bounds (s + - (random_tape w1 1 * (1 + - 0.1) + 0.1)) 0 s
                ltac:(lra)) as Bm.
  exists reading, w', s.
  rewrite R, W. unfold next_wind. fold w1. rewrite S.
  cbn [wind_speed wind_gust wind_min wind_direction Js.add Js.sub Js.neg].
  rewrite !clamp_Num.
  destruct station; eexists _, _, _; do 5 (split; [reflexivity|]);
    (split; [lra|]); (split; [lra|]); (split; [lra|]); (split; [lra|]).
  - pose proof (randBetween_range (-20) 20 _ U3 ltac:(lra)) as D.
    change (random_tape (next_random (next_random w1)) 0) with (random_tape w1 2) in D.
    lra.
  - pose proof (randBetween_range (-25) 25 _ U3 ltac:(lra)) as D.
    change (random_tape (next_random (next_random w1)) 0) with (random_tape w1 2) in D.
    lra.
Qed.

End SimulateCurrent.

Section SimulateHistoric.
Context {fmt : DateFns}.
Local Open Scope Q_scope.

Lemma simulateHistoric_loop_step (fuel : nat) (now i : Z) (speed gust : number)
    (pts : list HistoricPoint) (w : World) :
  (0 <= i)%Z ->
  simulateHistoric_loop (S fuel) now i speed gust pts w =
    simulateHistoric_loop fuel now (i - 5)
      (step_speed speed w) (step_gust (step_speed speed w) gust w)
      (pts ++ [step_point now i speed gust w]) (next_random (next_random w)).
Proof.
  intros P. cbn [simulateHistoric_loop].
  assert ((i >=? 0)%Z = true) as -> by (rewrite Z.geb_leb; apply Z.leb_le; lia).
  reflexivity.
Qed.

Lemma simulateHistoric_loop_exit (fuel : nat) (now i : Z) (speed gust : number)
    (pts : list HistoricPoint) (w : World) :
  (i < 0)%Z ->
  simulateHistoric_loop fuel now i speed gust pts w = (Ok pts, w).
Proof.
  intros N. destruct fuel; [reflexivity|]. cbn [simulateHistoric_loop].
  assert ((i >=? 0)%Z = false) as -> by (rewrite Z.geb_leb; apply Z.leb_gt; lia).
  reflexivity.
Qed.

(** The fuel does not decide where the loop stops: any amount above [i]
    gives the same run. *)
Lemma simulateHistoric_loop_fuel (fuel1 fuel2 : nat) (now i : Z) (speed gust : number)
    (pts : list HistoricPoint) (w : World) :
  (i < Z.of_nat fuel1)%Z -> (i < Z.of_nat fuel2)%Z ->
  simulateHistoric_loop fuel1 now i speed gust pts w =
  simulateHistoric_loop fuel2 now i speed gust pts w.
Proof.
  revert fuel2 i speed gust pts w.
  induction fuel1 as [|fuel1 IH]; intros fuel2 i speed gust pts w L1 L2.
  - rewrite !simulateHistoric_loop_exit by lia. reflexivity.
  - destruct (Z.lt_ge_cases i 0) as [N|P].
    + rewrite !simulateHistoric_loop_exit by lia. reflexivity.
    + destruct fuel2 as [|fuel2]; [lia|].
      rewrite !simulateHistoric_loop_step by lia.
      apply IH; lia.
Qed.

Lemma Math_max_not_NaN (x y : number) : x <> NaN -> y <> NaN -> Js.Math_max x y <> NaN.
Proof.
  intros X Y. destruct x, y; try congruence; cbn; try congruence;
    match goal with |- context [if ?b then _ else _] => destruct b end; congruence.
Qed.

Lemma step_speed_bounds (speed : number) (w : World) :
  speed <> NaN -> exists s : Q, step_speed speed w = Num s /\ 0 <= s <= 22.
Proof.
  intros N. unfold step_speed. apply clamp_bounds; [|lra]. now apply add_Num_not_NaN.
Qed.

Lemma step_gust_bounds (s : Q) (gust : number) (w : World) :
  gust <> NaN -> exists g : Q, step_gust (Num s) gust w = Num g /\ s <= g <= s + 5.
Proof.
  intros N. unfold step_gust. cbn [Js.add]. apply clamp_bounds; [|lra].
  apply add_Num_not_NaN. apply Math_max_not_NaN; congruence.
Qed.

Lemma step_point_rounded (now i : Z) (speed gust : number) (w : World) :
  speed <> NaN -> gust <> NaN -> rounded_point (step_point now i speed gust w).
Proof.
  intros Ns Ng. unfold step_point.
  destruct (step_speed_bounds speed w Ns) as (s & -> & Bs).
  destruct (step_gust_bounds s gust w Ng) as (g & -> & Bg).
  exists s, g. cbn [hp_speed hp_gust].
  assert (inject_Z (10 ^ 21) = 1000000000000000000000) as T by reflexivity.
  rewrite !Number_toFixed_nonneg by (rewrite ?T; lra).
  repeat split; lra.
Qed.

Lemma simulateHistoric_loop_spec (fuel : nat) :
  forall (now i : Z) (speed gust : number) (pts : list HistoricPoint) (w : World),
    speed <> NaN -> gust <> NaN -> (i < Z.of_nat fuel)%Z ->
    exists (new : list HistoricPoint) (w' : World),
      simulateHistoric_loop fuel now i speed gust pts w = (Ok (pts ++ new), w') /\
      length new = Z.to_nat (i / 5 + 1) /\
      forall (k : nat) (pt : HistoricPoint),
        new !! k = Some pt ->
        hp_t pt = formatISO (now - (i - 5 * Z.of_nat k) * 60000)%Z /\
        rounded_point pt.
Proof.
  induction fuel as [|fuel IH]; intros now i speed gust pts w Ns Ng L.
  - exists [], w. rewrite simulateHistoric_loop_exit, app_nil_r by lia.
    split; [reflexivity|]. split.
    + assert (i / 5 < 0)%Z by (apply Z.div_lt_upper_bound; lia). simpl. lia.
    + intros k pt E. discriminate E.
  - destruct (Z.lt_ge_cases i 0) as [N|P].
    + exists [], w. rewrite simulateHistoric_loop_exit, app_nil_r by lia.
      split; [reflexivity|]. split.
      * assert (i / 5 < 0)%Z by (apply Z.div_lt_upper_bound; lia). simpl. lia.
      * intros k pt E. discriminate E.
    + rewrite simulateHistoric_loop_step by lia.
      destruct (step_speed_bounds speed w Ns) as (s & Es & Bs).
      destruct (step_gust_bounds s gust w Ng) as (g & Eg & Bg).
      pose proof (step_point_rounded now i speed gust w Ns Ng) as R.
      set (pt0 := step_point now i speed gust w) in *.
      rewrite Es, Eg.
      destruct (IH now (i - 5)%Z (Num s) (Num g) (pts ++ [pt0])
                  (next_random (next_random w)))
        as (new & w' & E & Len & Pts); [congruence | congruence | lia |].
      exists (pt0 :: new), w'.
      split; [rewrite E, <- app_assoc; reflexivity|]. split.
      * cbn [length]. rewrite Len.
        replace (i / 5)%Z with ((i - 5) / 5 + 1)%Z
          by (replace i with (i - 5 + 1 * 5)%Z at 2 by lia;
              rewrite Z.div_add by lia; reflexivity).
        assert (0 <= (i - 5) / 5 + 1)%Z.
        { assert (-1 <= (i - 5) / 5)%Z by (apply Z.div_le_lower_bound; lia). lia. }
        lia.
      * intros [|k] pt E'.
        -- injection E' as <-. split; [|exact R].
           unfold pt0, step_point. cbn [hp_t]. f_equal. lia.
        -- destruct (Pts k pt E') as [T R']. split; [|exact R'].
           rewrite T. f_equal. lia.
Qed.

End SimulateHistoric.

Section SimulateHistoricPoints.
Context {fmt : DateFns}.
Local Open Scope Q_scope.

Lemma rounded_point_ordered (pt : HistoricPoint) :
  rounded_point pt ->
  exists x y : Q, hp_speed pt = Num x /\ hp_gust pt = Num y /\ 0 <= x /\ x <= y.
Proof.
  intros (s & g & Bs & Bg & -> & ->). eexists _, _.
  split; [reflexivity|]. split; [reflexivity|].
  assert (0 <= s * 100) as P by lra.
  assert (s * 100 <= g * 100) as L by lra.
  pose proof (Qround_half_up_mono _ _ P) as M0.
  pose proof (Qround_half_up_mono _ _ L) as M.
  change (Qround_half_up 0) with 0%Z in M0.
  rewrite Zle_Qle in M0, M. change (inject_Z 0) with 0 in M0.
  unfold Qdiv. change (/ 100) with (1 # 100). lra.
Qed.

(** C9, amended. For every current reading (speed and gust not NaN) and
    every whole number of minutes, [simulateHistoric] returns
    [floor(minutes / 5) + 1] points for [minutes >= 0] (37 for the default
    180) and none for a negative [minutes]; the points run oldest to
    newest in 5-minute steps from [now - minutes], the newest one at
    [now - (minutes mod 5)] minutes, which is [now] when 5 divides
    [minutes]; each speed and gust is rounded to the nearest hundredth and
    the gust is at least the speed. *)
Theorem simulateHistoric_points (current : WindPayload) (minutes : Z) (w : World) :
  wind_speed (wind current) <> NaN ->
  wind_gust (wind current) <> NaN ->
  exists (pts : list HistoricPoint) (w' : World),
    simulateHistoric current minutes w = (Ok pts, w') /\
    length pts = Z.to_nat (minutes / 5 + 1) /\
    (minutes = default_minutes -> length pts = 37%nat) /\
    (forall (k : nat) (pt : HistoricPoint),
        pts !! k = Some pt ->
        hp_t pt = formatISO (clock_tape w 0 - (minutes - 5 * Z.of_nat k) * 60000)%Z /\
        rounded_point pt /\
        exists x y : Q, hp_speed pt = Num x /\ hp_gust pt = Num y /\ 0 <= x /\ x <= y) /\
    ((0 <= minutes)%Z ->
     exists pt : HistoricPoint,
       last pts = Some pt /\
       hp_t pt = formatISO (clock_tape w 0 - (minutes mod 5) * 60000)%Z).
Proof.
  intros Ns Ng. unfold simulateHistoric.
  rewrite (bind_Ok Date_now _ w (next_clock w) (clock_tape w 0) eq_refl).
  destruct (simulateHistoric_loop_spec (Z.to_nat (minutes + 1)) (clock_tape w 0) minutes
              (wind_speed (wind current)) (wind_gust (wind current)) [] (next_clock w)
              Ns Ng ltac:(lia))
    as (pts & w' & E & Len & Pts).
  exists pts, w'. rewrite app_nil_l in E.
  split; [exact E|]. split; [exact Len|]. split; [|split].
  - intros ->. rewrite Len. reflexivity.
  - intros k pt L. destruct (Pts k pt L) as [T R].
    split; [exact T|]. split; [exact R|]. now apply rounded_point_ordered.
  - intros P.
    assert (0 <= minutes / 5)%Z as D by (apply Z.div_pos; lia).
    destruct (last pts) as [pt|] eqn:L.
    + exists pt. split; [reflexivity|].
      rewrite last_lookup in L. destruct (Pts _ pt L) as [T _].
      rewrite T. f_equal. rewrite Len.
      pose proof (Z.div_mod minutes 5 ltac:(lia)). lia.
    + apply last_None in L. subst pts. simpl in Len. lia.
Qed.

(** [simulateHistoric] returns on every input. *)
Lemma simulateHistoric_loop_returns (fuel : nat) :
  forall (now i : Z) (speed gust : number) (pts : list HistoricPoint) (w : World),
  exists (pts' : list HistoricPoint) (w' : World),
    simulateHistoric_loop fuel now i speed gust pts w = (Ok pts', w').
Proof.
  induction fuel as [|fuel IH]; intros now i speed gust pts w.
  - now exists pts, w.
  - destruct (Z.lt_ge_cases i 0) as [N|P].
    + exists pts, w. now apply simulateHistoric_loop_exit.
    + rewrite simulateHistoric_loop_step by lia. apply IH.
Qed.

Lemma simulateHistoric_returns (current : WindPayload) (minutes : Z) (w : World) :
  exists (pts : list HistoricPoint) (w' : World),
    simulateHistoric current minutes w = (Ok pts, w').
Proof.
  unfold simulateHistoric.
  rewrite (bind_Ok Date_now _ w (next_clock w) (clock_tape w 0) eq_refl).
  apply simulateHistoric_loop_returns.
Qed.

End SimulateHistoricPoints.

(** ** One poll cycle *)

Section PollCycle.
Context {fmt : DateFns}.

Lemma fetchJSON_world {T} (net : World -> string -> response T) (url : string)
    (w : World) :
  (exists v : T, fetchJSON net url w = (Ok v, w)) \/ fetch_fails net url w.
Proof.
  unfold fetch_fails, fetchJSON.
  destruct (net w url) as [| |code [v|]]; eauto.
  - destruct (_ && _); eauto.
  - destruct (_ && _); eauto.
Qed.

Lemma resolve_current_spec (baseUrl : option string) (state : TrackerState)
    (key : station_key) (nextCurrent : gmap Z WindPayload) (w : World) :
  let id := station_id (STATIONS key) in
  exists (payload : WindPayload) (w1 : World),
    resolve_current baseUrl state key nextCurrent w
      = (Ok (<[id := payload]> nextCurrent), w1) /\
    (forall url, truthy baseUrl = Some url ->
                 fetch_fails http_current (current_url url id) w ->
                 simulateCurrent key (current state !! id) w = (Ok payload, w1)) /\
    (truthy baseUrl = None ->
     simulateCurrent key (current state !! id) w = (Ok payload, w1)).
Proof.
  intros id. unfold resolve_current. fold id.
  destruct (simulateCurrent_returns key (current state !! id) w)
    as (sim & ws & S & _).
  destruct (truthy baseUrl) as [url|] eqn:T.
  - destruct (fetchJSON_world http_current (current_url url id) w) as [[v F]|[e F]].
    + eexists _, w. split.
      * apply try_catch_Ok. rewrite (bind_Ok _ _ _ _ _ F). reflexivity.
      * split; [|discriminate].
        intros url' [= <-] [e F']. rewrite F in F'. discriminate F'.
    + exists sim, ws. split.
      * rewrite (try_catch_Throw _ _ w w e) by (now apply bind_Throw).
        now rewrite (bind_Ok _ _ _ _ _ S).
      * split; [|discriminate]. intros; exact S.
  - exists sim, ws. split.
    + apply try_catch_Ok. now rewrite (bind_Ok _ _ _ _ _ S).
    + split; [discriminate|]. intros _; exact S.
Qed.

Lemma resolve_historic_spec (baseUrl : option string) (key : station_key)
    (payload : WindPayload) (nextCurrent : gmap Z WindPayload)
    (nextHistoric : gmap Z (list HistoricPoint)) (w : World) :
  let id := station_id (STATIONS key) in
  nextCurrent !! id = Some payload ->
  exists (pts : list HistoricPoint) (w2 : World),
    resolve_historic baseUrl key nextCurrent nextHistoric w
      = (Ok (<[id := pts]> nextHistoric), w2) /\
    (forall url, truthy baseUrl = Some url ->
                 fetch_fails http_historic (historic_url url id) w ->
                 simulateHistoric payload default_minutes w = (Ok pts, w2)) /\
    (truthy baseUrl = None ->
     simulateHistoric payload default_minutes w = (Ok pts, w2)).
Proof.
  intros id L. unfold resolve_historic. fold id. rewrite L.
  cbn [simulateHistoric_of].
  destruct (simulateHistoric_returns payload default_minutes w) as (sim & ws & S).
  destruct (truthy baseUrl) as [url|] eqn:T.
  - destruct (fetchJSON_world http_historic (historic_url url id) w) as [[v F]|[e F]].
    + eexists _, w. split.
      * apply try_catch_Ok. rewrite (bind_Ok _ _ _ _ _ F). reflexivity.
      * split; [|discriminate].
        intros url' [= <-] [e F']. rewrite F in F'. discriminate F'.
    + exists sim, ws. split.
      * rewrite (try_catch_Throw _ _ w w e) by (now apply bind_Throw).
        now rewrite (bind_Ok _ _ _ _ _ S).
      * split; [|discriminate]. intros; exact S.
  - exists sim, ws. split.
    + apply try_catch_Ok. now rewrite (bind_Ok _ _ _ _ _ S).
    + split; [discriminate|]. intros _; exact S.
Qed.

Lemma poll_station_spec (baseUrl : option string) (state : TrackerState)
    (key : station_key) (next : TrackerState) (w : World) :
  let id := station_id (STATIONS key) in
  exists (payload : WindPayload) (pts : list HistoricPoint) (w1 w2 : World),
    poll_station baseUrl state key next w
      = (Ok {| current := <[id := payload]> (current next);
               historic := <[id := pts]> (historic next) |}, w2) /\
    (forall url, truthy baseUrl = Some url ->
                 fetch_fails http_current (current_url url id) w ->
                 simulateCurrent key (current state !! id) w = (Ok payload, w1)) /\
    (forall url, truthy baseUrl = Some url ->
                 fetch_fails http_historic (historic_url url id) w1 ->
                 simulateHistoric payload default_minutes w1 = (Ok pts, w2)).
Proof.
  intros id.
  destruct (resolve_current_spec baseUrl state key (current next) w)
    as (payload & w1 & C & Cf & _). fold id in C, Cf.
  destruct (resolve_historic_spec baseUrl key payload (<[id := payload]> (current next))
              (historic next) w1 (lookup_insert_eq _ _ _))
    as (pts & w2 & Hh & Hf & _). fold id in Hh, Hf.
  exists payload, pts, w1, w2. split; [|split; assumption].
  unfold poll_station. rewrite (bind_Ok _ _ _ _ _ C). fold id.
  now rewrite (bind_Ok _ _ _ _ _ Hh).
Qed.


End PollCycle.

(** ** The simulator leaves the network alone *)

Section Network.
Context {fmt : DateFns}.

Lemma simulateCurrent_network (station : station_key) (prev : option WindPayload)
    (w w' : World) (r : result WindPayload) :
  simulateCurrent station prev w = (r, w') ->
  http_current w' = http_current w /\ http_historic w' = http_historic w.
Proof.
  destruct station, prev;
    cbv beta iota zeta delta [simulateCurrent bind randBetween Math_random ret Date_now];
    intros [= <- <-]; split; reflexivity.
Qed.

Lemma simulateHistoric_loop_network (fuel : nat) :
  forall (now i : Z) (speed gust : number) (pts : list HistoricPoint) (w w' : World)
         (r : result (list HistoricPoint)),
    simulateHistoric_loop fuel now i speed gust pts w = (r, w') ->
    http_current w' = http_current w /\ http_historic w' = http_historic w.
Proof.
  induction fuel as [|fuel IH]; intros now i speed gust pts w w' r.
  - intros [= <- <-]. split; reflexivity.
  - destruct (Z.lt_ge_cases i 0) as [N|P].
    + rewrite simulateHistoric_loop_exit by lia. intros [= <- <-]. split; reflexivity.
    + rewrite simulateHistoric_loop_step by lia. intros E.
      apply IH in E. exact E.
Qed.

Lemma simulateHistoric_network (current : WindPayload) (minutes : Z) (w w' : World)
    (r : result (list HistoricPoint)) :
  simulateHistoric current minutes w = (r, w') ->
  http_current w' = http_current w /\ http_historic w' = http_historic w.
Proof.
  unfold simulateHistoric.
  rewrite (bind_Ok Date_now _ w (next_clock w) (clock_tape w 0) eq_refl).
  intros E. apply simulateHistoric_loop_network in E. exact E.
Qed.

End Network.

(** ** The theorems at concrete inputs *)

Section Instances.
Local Open Scope Q_scope.

Lemma etaMinutes_spec_witness :
  Hook.etaMinutes_of (Some (reading 101 0.3)) true = None /\
  Hook.etaMinutes_of (Some (reading 101 6)) false = None /\
  (exists n : Z,
      Hook.etaMinutes_of (Some (reading 101 12)) true = Some (Num (inject_Z n)) /\
      (0 < n)%Z) /\
  Hook.etaMinutes_of (Some (reading 101 6)) true = Some (Num 79).
Proof.
  split; [|split; [|split]].
  - destruct (etaMinutes_spec (Some (reading 101 0.3)) true) as (A & _).
    apply A. right. reflexivity.
  - destruct (etaMinutes_spec (Some (reading 101 6)) false) as (A & _).
    apply A. left. reflexivity.
  - destruct (etaMinutes_spec (Some (reading 101 12)) true) as (_ & B & _).
    destruct (B eq_refl eq_refl) as (n & E & P & _).
    exists n. split; assumption.
  - destruct (etaMinutes_spec (Some (reading 101 6)) true) as (_ & _ & C).
    apply C; reflexivity.
Defined.

Lemma isBuildingAtDrobak_iff_witness :
  Hook.drobak rising_drobak = Some (reading 101 6) /\
  Hook.isBuildingAtDrobak rising_drobak = true.
Proof.
  split; [reflexivity|].
  apply (isBuildingAtDrobak_iff rising_drobak (reading 101 6) eq_refl).
  split; reflexivity.
Defined.

Lemma slope_spec_witness :
  slope [point 1; point 2] 6 = Num 0 /\
  slope [point 0; point 1; point 2; point 3; point 4; point 5; point 7] 6
  = ((Num 7 - Num 1) / Num 6)%js.
Proof.
  split.
  - destruct (slope_spec [point 1; point 2] 6) as (A & _).
    apply A. simpl. lia.
  - destruct (slope_spec
                [point 0; point 1; point 2; point 3; point 4; point 5; point 7] 6)
      as (_ & B & _).
    apply (B [point 1; point 2; point 3; point 4; point 5; point 7]
             (point 1) (point 7)).
    + simpl. lia.
    + split; [reflexivity|]. exists [point 0]. reflexivity.
    + reflexivity.
    + reflexivity.
Defined.

Lemma degToCardinal_compass_witness :
  degToCardinal (Value (Num 350)) = Some "N"%string.
Proof.
  destruct degToCardinal_compass as (A & _).
  destruct (A 350 ltac:(lra) ltac:(lra)) as (ix & s & _ & _ & _ & E & W).
  rewrite E. f_equal. apply W. lra.
Defined.

Lemma offline_world_unit_tape : unit_tape offline_world.
Proof. intros n. simpl. split; lra. Defined.

Lemma simulateCurrent_invariant_witness :
  exists (reading' : WindPayload) (w' : World) (speed gust min direction : Q),
    simulateCurrent (fmt := epoch_text) drobak (Some (reading 101 6)) offline_world
    = (Ok reading', w') /\
    wind_speed (wind reading') = Num speed /\
    wind_gust (wind reading') = Num gust /\
    wind_min (wind reading') = Num min /\
    wind_direction (wind reading') = Num direction /\
    0 <= min /\ min <= speed /\ speed <= gust /\ speed <= 20 /\
    170 <= direction <= 210.
Proof.
  apply (simulateCurrent_invariant (fmt := epoch_text) drobak (Some (reading 101 6))
           offline_world offline_world_unit_tape).
  intros p E. injection E as <-. discriminate.
Defined.

Lemma simulateHistoric_points_witness :
  exists (pts : list HistoricPoint) (w' : World),
    simulateHistoric (fmt := epoch_text) (reading 101 6) 180 offline_world = (Ok pts, w') /\
    length pts = 37%nat.
Proof.
  destruct (simulateHistoric_points (fmt := epoch_text) (reading 101 6) 180 offline_world)
    as (pts & w' & E & _ & D & _); [discriminate | discriminate |].
  exists pts, w'. split; [exact E|]. apply D. reflexivity.
Defined.

(** C9 as stated fails: a window of 7 minutes yields two points, not
    7/5 + 1, and the newer one is stamped two minutes before now; a
    window of -10 minutes yields no point. *)
Lemma simulateHistoric_seven_minutes :
  exists (p1 p2 : HistoricPoint) (w7 w10 : World),
    simulateHistoric (fmt := epoch_text) (reading 101 6) 7 offline_world
    = (Ok [p1; p2], w7) /\
    ~ inject_Z (Z.of_nat (length [p1; p2])) == 7 / 5 + 1 /\
    hp_t p2 = @formatISO epoch_text (1714564800000 - 2 * 60000)%Z /\
    hp_t p2 <> @formatISO epoch_text 1714564800000%Z /\
    simulateHistoric (fmt := epoch_text) (reading 101 6) (-10) offline_world
    = (Ok [], w10).
Proof.
  eexists _, _, _, _.
  split; [lazy; reflexivity|].
  split; [intros E; discriminate E|].
  split; [reflexivity|].
  split; [intros E; discriminate E|].
  reflexivity.
Qed.


End Instances.
